(** * SignupPage: validation schema and submission handler

    A shallow embedding of [Frontend/src/pages/SignupPage.tsx]: the zod
    schema [SignupSchema], the react-hook-form resolver built from it, the
    asynchronous submit handler [onSubmit] with its try / catch / finally
    block, and the component seen as an event-driven state machine.

    Strings.  A JavaScript string is a sequence of UTF-16 code units.  The
    development covers the strings all of whose code units are below 256:
    a character of [string] stands for the code unit with the same number.
    On this range [String.length] is the [length] property, and [trim] and
    [toLowerCase] below are the ECMAScript built-ins (the range is closed
    under both). *)

From Stdlib Require Import Ascii.
From stdpp Require Import base gmap strings list.

Open Scope string_scope.
Open Scope list_scope.
Open Scope nat_scope.

(** ** The string built-ins used by the page *)

Module JsString.

(** ECMAScript WhiteSpace and LineTerminator code units below 256:
    TAB, LF, VT, FF, CR, SP and NBSP. *)
Definition isWhiteSpace (c : ascii) : bool :=
  let n := nat_of_ascii c in
  (n =? 9) || (n =? 10) || (n =? 11) || (n =? 12) || (n =? 13)
  || (n =? 32) || (n =? 160).

(** [String.prototype.trimStart] *)
Fixpoint trimStart (s : string) : string :=
  match s with
  | EmptyString => EmptyString
  | String c r => if isWhiteSpace c then trimStart r else s
  end.

(** [String.prototype.trimEnd] *)
Fixpoint trimEnd (s : string) : string :=
  match s with
  | EmptyString => EmptyString
  | String c r =>
      match trimEnd r with
      | EmptyString => if isWhiteSpace c then EmptyString else String c EmptyString
      | r' => String c r'
      end
  end.

(** [String.prototype.trim] *)
Definition trim (s : string) : string := trimEnd (trimStart s).

(** The lower-case mapping of one code unit below 256: A-Z, and the
    upper-case letters of U+00C0..U+00DE (U+00D7, the multiplication sign,
    is no letter). *)
Definition lowerChar (c : ascii) : ascii :=
  let n := nat_of_ascii c in
  if ((65 <=? n) && (n <=? 90))
     || ((192 <=? n) && (n <=? 222) && negb (n =? 215))
  then ascii_of_nat (n + 32)
  else c.

(** [String.prototype.toLowerCase] on the range.  (Beyond it the built-in
    can change the length of a string: U+0130 becomes two code units.) *)
Fixpoint toLowerCase (s : string) : string :=
  match s with
  | EmptyString => EmptyString
  | String c r => String (lowerChar c) (toLowerCase r)
  end.

(** Truthiness of a value of type [string | undefined]: [undefined] and
    the empty string are falsy. *)
Definition truthy (v : option string) : bool :=
  match v with
  | Some (String _ _) => true
  | _ => false
  end.

(** [a || b] on such values. *)
Definition or_else (a b : option string) : option string :=
  if truthy a then a else b.

End JsString.

Import JsString.

(** ** Data *)

(** [type SignupForm = z.infer<typeof SignupSchema>]; the payload built by
    [onSubmit] has the same three fields. *)
Record SignupForm : Type := mkForm {
  name : string;
  email : string;
  password : string
}.

(** ** zod: the checks the schema uses *)

Module Zod.

(** An issue of a failed parse: the path of the field and the message. *)
Record Issue : Type := mkIssue { path : string; message : string }.

(** [z.string().min(n, msg)]: the check fails when [length < n]. *)
Definition string_min (n : nat) (msg : string) (v : string) : list string :=
  if String.length v <? n then [msg] else [].

(** [z.string().email(msg)], over the email grammar of the library. *)
Definition string_email (isEmail : string → bool) (msg : string) (v : string)
  : list string :=
  if isEmail v then [] else [msg].

(** The issues of one field of a [z.object]. *)
Definition at_path (p : string) (msgs : list string) : list Issue :=
  mkIssue p <$> msgs.

End Zod.

(** [zodResolver]: the field errors of a parse.  For every path the first
    issue is kept. *)
Definition toFieldErrors (issues : list Zod.Issue) : gmap string string :=
  foldr (λ i errs, <[Zod.path i := Zod.message i]> errs) ∅ issues.

(** ** The value caught by [catch (err: unknown)] *)

Module ApiError.

(** [data?: { message?: string; error?: string }] *)
Record Data : Type := mkData {
  message : option string;
  error : option string
}.

(** [response?: { data?: ... }] *)
Record Response : Type := mkResponse { data : option Data }.

End ApiError.

(** What [api.post] rejects with, or a callee throws: [null] / [undefined],
    or an object read through the two casts of the handler, [ApiError]
    (its [response]) and [Error] (its own [message]). *)
Inductive JsError : Type :=
| Nullish
| ErrorObject (response : option ApiError.Response) (message : option string).

(** [(err as ApiError)?.response] *)
Definition err_response (err : JsError) : option ApiError.Response :=
  match err with
  | Nullish => None
  | ErrorObject r _ => r
  end.

(** [(err as Error)?.message] *)
Definition err_message (err : JsError) : option string :=
  match err with
  | Nullish => None
  | ErrorObject _ m => m
  end.

(** [(err as ApiError)?.response?.data] *)
Definition err_data (err : JsError) : option ApiError.Data :=
  err_response err ≫= ApiError.data.

(** [a || b || c || dflt]: the operator associates to the left, and the
    last operand is a non-empty literal. *)
Definition or_default (a : option string) (dflt : string) : string :=
  match a with
  | Some (String c r) => String c r
  | _ => dflt
  end.

(** The [errorMessage] of the [catch] block. *)
Definition errorMessage (err : JsError) : string :=
  or_default
    (or_else
       (or_else (err_data err ≫= ApiError.message)
                (err_data err ≫= ApiError.error))
       (err_message err))
    "Signup failed.".

(** ** Effects of the handler *)

(** The second argument of [toast.success] and [toast.error]. *)
Record ToastOptions : Type := mkOptions {
  duration : nat;
  position : string;
  background : string
}.

(** The arrow function handed to [setTimeout]: [() => navigate(path)]. *)
Inductive Callback : Type :=
| Navigate (path : string).

(** The calls [onSubmit] makes. *)
Inductive Op : Type :=
| SetLoading (b : bool)
| ApiPost (url : string) (body : SignupForm)
| ToastSuccess (msg : string) (opts : ToastOptions)
| ToastError (msg : string) (opts : ToastOptions)
| SetTimeout (cb : Callback) (ms : nat).

(** How a call comes back: it returns (an awaited promise resolves), or it
    throws (the promise rejects). *)
Inductive Completion : Type :=
| Normal
| Thrown (err : JsError).

(** The body of an async function returning nothing: it completes, throws,
    or makes a call and goes on with the way the call came back. *)
Inductive Prog : Type :=
| Done
| Raise (err : JsError)
| Call (op : Op) (k : Completion → Prog).

(** A call as a statement: an exception of the callee propagates. *)
Definition call (op : Op) : Prog :=
  Call op (λ c, match c with Normal => Done | Thrown e => Raise e end).

(** [p; q] *)
Fixpoint seq (p q : Prog) : Prog :=
  match p with
  | Done => q
  | Raise e => Raise e
  | Call op k => Call op (λ c, seq (k c) q)
  end.

(** [try { p } catch (err) { h err }] *)
Fixpoint try_catch (p : Prog) (h : JsError → Prog) : Prog :=
  match p with
  | Done => Done
  | Raise e => h e
  | Call op k => Call op (λ c, try_catch (k c) h)
  end.

(** [try { p } finally { f }]: [f] runs on both exits, and an exception of
    [p] is thrown again after it. *)
Fixpoint try_finally (p f : Prog) : Prog :=
  match p with
  | Done => f
  | Raise e => seq f (Raise e)
  | Call op k => Call op (λ c, try_finally (k c) f)
  end.

Declare Scope prog_scope.
Delimit Scope prog_scope with prog.
Bind Scope prog_scope with Prog.
Notation "p ;; q" := (seq p q)
  (at level 100, q at level 200, right associativity) : prog_scope.

(** [const onSubmit: SubmitHandler<SignupForm> = async (data) => ...] *)
Definition onSubmit (data : SignupForm) : Prog :=
  (call (SetLoading true) ;;
  try_finally
    (try_catch
       (let payload :=
          {| name := trim (name data);
             email := toLowerCase (trim (email data));
             password := password data |} in
        call (ApiPost "/auth/signup" payload) ;;
        call (ToastSuccess "Signup successful! Redirecting to dashboard..."
                {| duration := 1800;
                   position := "top-center";
                   background := "linear-gradient(90deg,#fdf6e3,#e0f2fe)" |}) ;;
        call (SetTimeout (Navigate "/dashboard") 900))
       (λ err,
        call (ToastError (errorMessage err)
                {| duration := 2200;
                   position := "top-center";
                   background := "linear-gradient(90deg,#fee2e2,#e0f2fe)" |})))
    (call (SetLoading false)))%prog.

(** ** The mounted component *)

(** What the page does to the outside, in order.  [Unhandled err]: the
    promise of [onSubmit] rejected with [err], an exception having left
    the body.  (What becomes of it is the matter of [handleSubmit]; no
    entry of this kind means that nothing is left to it.) *)
Inductive Obs : Type :=
| Posted (url : string) (body : SignupForm)
| ToastedSuccess (msg : string) (opts : ToastOptions)
| ToastedError (msg : string) (opts : ToastOptions)
| Navigated (path : string)
| Unhandled (err : JsError).

(** A request waiting for its answer, with the rest of the handler that
    the [await] suspended. *)
Record Request : Type := mkRequest {
  req_url : string;
  req_body : SignupForm;
  req_resume : Completion → Prog
}.

(** The component.  [loading] is the state of [useState(false)]: the value
    last handed to [setLoading]. *)
Record State : Type := mkState {
  loading : bool;
  errors : gmap string string;    (* [formState.errors], field to message *)
  mounted : bool;
  clock : nat;                    (* milliseconds *)
  timers : list (nat * Callback); (* [setTimeout] entries: due time, callback *)
  inflight : list Request;
  log : list Obs
}.

Definition init : State :=
  {| loading := false; errors := ∅; mounted := true; clock := 0;
     timers := []; inflight := []; log := [] |}.

Definition set_loading (b : bool) (s : State) : State :=
  {| loading := b; errors := errors s; mounted := mounted s; clock := clock s;
     timers := timers s; inflight := inflight s; log := log s |}.

Definition set_errors (e : gmap string string) (s : State) : State :=
  {| loading := loading s; errors := e; mounted := mounted s; clock := clock s;
     timers := timers s; inflight := inflight s; log := log s |}.

Definition set_mounted (b : bool) (s : State) : State :=
  {| loading := loading s; errors := errors s; mounted := b; clock := clock s;
     timers := timers s; inflight := inflight s; log := log s |}.

Definition set_clock (t : nat) (s : State) : State :=
  {| loading := loading s; errors := errors s; mounted := mounted s; clock := t;
     timers := timers s; inflight := inflight s; log := log s |}.

Definition set_timers (ts : list (nat * Callback)) (s : State) : State :=
  {| loading := loading s; errors := errors s; mounted := mounted s;
     clock := clock s; timers := ts; inflight := inflight s; log := log s |}.

Definition set_inflight (rs : list Request) (s : State) : State :=
  {| loading := loading s; errors := errors s; mounted := mounted s;
     clock := clock s; timers := timers s; inflight := rs; log := log s |}.

Definition observe (o : Obs) (s : State) : State :=
  {| loading := loading s; errors := errors s; mounted := mounted s;
     clock := clock s; timers := timers s; inflight := inflight s;
     log := log s ++ [o] |}.

(** Which of the calls into the libraries throw.  [setLoading], the
    setter of [useState], never does. *)
Definition Env : Type := Op → Completion.

(** No callee throws. *)
Definition quiet : Env := λ _, Normal.

(** Runs a handler body up to its [await] or to its end.  [api.post] sends
    the request and suspends the rest, which the answer resumes (a call
    that fails at once is a request answered by a rejection); an exception
    that leaves the body rejects the promise of the handler. *)
Fixpoint exec (p : Prog) (env : Env) (s : State) : State :=
  match p with
  | Done => s
  | Raise e => observe (Unhandled e) s
  | Call op k =>
      match op with
      | SetLoading b => exec (k Normal) env (set_loading b s)
      | ApiPost url body =>
          set_inflight (inflight s ++ [mkRequest url body k])
                       (observe (Posted url body) s)
      | ToastSuccess msg opts =>
          match env op with
          | Normal => exec (k Normal) env (observe (ToastedSuccess msg opts) s)
          | Thrown e => exec (k (Thrown e)) env s
          end
      | ToastError msg opts =>
          match env op with
          | Normal => exec (k Normal) env (observe (ToastedError msg opts) s)
          | Thrown e => exec (k (Thrown e)) env s
          end
      | SetTimeout cb ms =>
          match env op with
          | Normal => exec (k Normal) env (set_timers (timers s ++ [(clock s + ms, cb)]) s)
          | Thrown e => exec (k (Thrown e)) env s
          end
      end
  end.

(** A timer callback runs. *)
Definition run_callback (cb : Callback) (s : State) : State :=
  match cb with
  | Navigate path => observe (Navigated path) s
  end.

(** What happens to the component.  The form is submitted in two ways.
    [Submit]: through the submit button as the current state renders it,
    [disabled={loading}].  [RawSubmit]: a submit event that reaches
    [handleSubmit(onSubmit)] whatever [loading] is, because it was fired
    before the page was rendered again after [setLoading(true)], or not by
    the button at all ([requestSubmit], a dispatched event); neither
    [handleSubmit(onSubmit)] nor [onSubmit] looks at [loading]. *)
Inductive Event : Type :=
| Submit (d : SignupForm) (env : Env)          (* submit through the button *)
| Settle (i : nat) (c : Completion) (env : Env) (* request [i] is answered *)
| Fire (i : nat)                               (* timer [i] goes off *)
| Tick (dt : nat)                              (* time passes *)
| Unmount
| RawSubmit (d : SignupForm) (env : Env).      (* submit past the button *)

Section Signup.

(** The email grammar of [z.string().email]; it belongs to the zod
    library, of which the page fixes no version. *)
Variable isEmail : string → bool.

(** [const SignupSchema = z.object({ name, email, password })]: the issues
    of a parse, in the order of the keys. *)
Definition SignupSchema (d : SignupForm) : list Zod.Issue :=
  Zod.at_path "name"
    (Zod.string_min 2 "Name must be at least 2 characters" (name d))
  ++ Zod.at_path "email"
    (Zod.string_email isEmail "Enter a valid email address" (email d))
  ++ Zod.at_path "password"
    (Zod.string_min 6 "Password must be at least 6 characters" (password d)).

(** [resolver: zodResolver(SignupSchema)] *)
Definition resolver (d : SignupForm) : gmap string string :=
  toFieldErrors (SignupSchema d).

(** [handleSubmit(onValid)] of react-hook-form: the resolver runs on the
    field values; [onValid] is called when it reports no error, and the
    errors are stored otherwise. *)
Definition handleSubmit (onValid : SignupForm → Prog) (d : SignupForm)
    (env : Env) (s : State) : State :=
  let errs := resolver d in
  if decide (errs = ∅) then exec (onValid d) env (set_errors ∅ s)
  else set_errors errs s.

(** One event.  [<form onSubmit={handleSubmit(onSubmit)}>]: a submit
    through the button, which is rendered with [disabled={loading}], is
    lost while [loading] is true; any other submit event runs
    [handleSubmit(onSubmit)].  A torn-down component has no form.  Tearing
    down cancels nothing: the page registers no cleanup. *)
Definition step (s : State) (ev : Event) : State :=
  match ev with
  | Submit d env =>
      if mounted s && negb (loading s) then handleSubmit onSubmit d env s
      else s
  | Settle i c env =>
      match inflight s !! i with
      | Some r => exec (req_resume r c) env (set_inflight (delete i (inflight s)) s)
      | None => s
      end
  | Fire i =>
      match timers s !! i with
      | Some (due, cb) =>
          if due <=? clock s
          then run_callback cb (set_timers (delete i (timers s)) s)
          else s
      | None => s
      end
  | Tick dt => set_clock (clock s + dt) s
  | Unmount => set_mounted false s
  | RawSubmit d env =>
      if mounted s then handleSubmit onSubmit d env s else s
  end.

(** A run of the component. *)
Definition run (s : State) (evs : list Event) : State :=
  foldl step s evs.

End Signup.

(** An email grammar to run the page on: a non-empty local part, one [@],
    and a domain with a dot, none of them with white space. *)
Module Sample.

Fixpoint count_at (s : string) : nat :=
  match s with
  | EmptyString => 0
  | String c r => (if Ascii.eqb c "@" then 1 else 0) + count_at r
  end.

Fixpoint has_space (s : string) : bool :=
  match s with
  | EmptyString => false
  | String c r => isWhiteSpace c || has_space r
  end.

Fixpoint after_at (s : string) : string :=
  match s with
  | EmptyString => EmptyString
  | String c r => if Ascii.eqb c "@" then r else after_at r
  end.

Fixpoint has_inner_dot (s : string) : bool :=
  match s with
  | String a (String "." (String b r)) => true
  | String _ r => has_inner_dot r
  | EmptyString => false
  end.

Definition isEmail (s : string) : bool :=
  (count_at s =? 1) && negb (has_space s)
  && negb (String.prefix "@" s) && has_inner_dot (after_at s).

End Sample.

(** ** Notions used to state the properties *)

(** The head of a string is no white space (or the string is empty). *)
Definition starts_clean (s : string) : Prop :=
  match s with
  | EmptyString => True
  | String c _ => isWhiteSpace c = false
  end.

(** The fallback chain in the words of the specification: the candidates
    are tried in order and the first non-empty one is the text; the
    default is the text when there is none. *)
Fixpoint first_nonempty (candidates : list (option string)) (dflt : string)
  : string :=
  match candidates with
  | [] => dflt
  | Some (String c r) :: _ => String c r
  | _ :: rest => first_nonempty rest dflt
  end.

(** A response body [{ message, error }] of a failed request, in an error
    whose own message is [m]. *)
Definition with_body (message error m : option string) : JsError :=
  ErrorObject
    (Some (ApiError.mkResponse (Some (ApiError.mkData message error)))) m.

(** The options of the two notifications. *)
Definition success_options : ToastOptions :=
  {| duration := 1800; position := "top-center";
     background := "linear-gradient(90deg,#fdf6e3,#e0f2fe)" |}.

Definition error_options : ToastOptions :=
  {| duration := 2200; position := "top-center";
     background := "linear-gradient(90deg,#fee2e2,#e0f2fe)" |}.

Definition success_text : string :=
  "Signup successful! Redirecting to dashboard...".

(** The payload of the request for field values [d]. *)
Definition normalized (d : SignupForm) : SignupForm :=
  {| name := trim (name d);
     email := toLowerCase (trim (email d));
     password := password d |}.

(** The request [onSubmit d] leaves waiting at its [await]. *)
Definition awaiting (d : SignupForm) : list Request :=
  inflight (exec (onSubmit d) quiet init).

(** A waiting request that was sent by [onSubmit]. *)
Definition from_onSubmit (r : Request) : Prop :=
  ∃ d, awaiting d = [r].

Definition is_success (o : Obs) : bool :=
  match o with ToastedSuccess _ _ => true | _ => false end.

Definition is_navigation (o : Obs) : bool :=
  match o with Navigated _ => true | _ => false end.

Definition is_post (o : Obs) : bool :=
  match o with Posted _ _ => true | _ => false end.

Definition count (f : Obs → bool) (l : list Obs) : nat :=
  length (List.filter f l).

(** Every submit of these events goes through the button. *)
Definition through_button (ev : Event) : Prop :=
  match ev with
  | RawSubmit _ _ => False
  | _ => True
  end.

(** What holds in every state the component reaches. *)
Record Inv (s : State) : Prop := mkInv {
  inv_requests : Forall from_onSubmit (inflight s);
  inv_waiting : loading s = true → inflight s ≠ [];
  inv_timers : Forall (λ t, t.2 = Navigate "/dashboard") (timers s);
  inv_pending :
    count is_navigation (log s) + length (timers s) ≤ count is_success (log s);
  inv_order :
    ∀ n, count is_navigation (take n (log s)) ≤ count is_success (take n (log s))
}.

(** ** Concrete inputs *)

(** Field values the sample grammar accepts. *)
Definition valid_form : SignupForm :=
  {| name := " Al "; email := "A@B.COM"; password := "secret1" |}.

(** Field values with a name of one character. *)
Definition short_name : SignupForm :=
  {| name := "A"; email := "a@b.com"; password := "secret1" |}.

(** Every call into a library throws. *)
Definition hostile : Env := λ _, Thrown Nullish.

(** A failed request whose body carries only [error: "x"]. *)
Definition body_error_x : JsError := with_body None (Some "x") None.

(** The component once [valid_form] was submitted. *)
Definition submitted : State :=
  run Sample.isEmail init [Submit valid_form quiet].

(** ** The rest of the page: default values, password visibility, view *)

(** [defaultValues: { name: "", email: "", password: "" }] of [useForm]:
    the field values of a form nobody typed into. *)
Definition defaultValues : SignupForm :=
  {| name := ""; email := ""; password := "" |}.

(** The page: the component above and
    [const [showPassword, setShowPassword] = useState(false)]. *)
Record Page : Type := mkPage {
  core : State;
  showPassword : bool
}.

(** The page as it is mounted. *)
Definition mount : Page := {| core := init; showPassword := false |}.

(** [{showPassword ? <EyeOff size={16} /> : <Eye size={16} />}] *)
Inductive Icon : Type := Eye | EyeOff.

(** What the returned JSX makes of the state: the three error paragraphs
    ([errors.f && <p>{errors.f.message}</p>]), the [type] of the password
    input, the icon of the reveal button, and the submit button. *)
Record View : Type := mkView {
  name_error : option string;
  email_error : option string;
  password_error : option string;
  password_type : string;
  toggle_icon : Icon;
  submit_disabled : bool;
  submit_label : string
}.

Definition render (p : Page) : View :=
  {| name_error := errors (core p) !! "name";
     email_error := errors (core p) !! "email";
     password_error := errors (core p) !! "password";
     password_type := if showPassword p then "text" else "password";
     toggle_icon := if showPassword p then EyeOff else Eye;
     submit_disabled := loading (core p);
     submit_label :=
       if loading (core p) then "Creating Account..." else "Create Account" |}.

(** What happens to the page: an event of the component, or a click on
    the reveal button, [onClick={() => setShowPassword((v) => !v)}], a
    button of [type="button"] that is never disabled. *)
Inductive PageEvent : Type :=
| Component (ev : Event)
| TogglePassword.

Section Page.

Variable isEmail : string → bool.

Definition page_step (p : Page) (ev : PageEvent) : Page :=
  match ev with
  | Component ev =>
      {| core := step isEmail (core p) ev; showPassword := showPassword p |}
  | TogglePassword =>
      if mounted (core p)
      then {| core := core p; showPassword := negb (showPassword p) |}
      else p
  end.

Definition page_run (p : Page) (evs : list PageEvent) : Page :=
  foldl page_step p evs.

End Page.

(** The events of the component among those of the page. *)
Definition component_events (evs : list PageEvent) : list Event :=
  omap (λ ev, match ev with Component e => Some e | TogglePassword => None end)
       evs.

(** A string of white space only. *)
Fixpoint blank (s : string) : bool :=
  match s with
  | EmptyString => true
  | String c r => isWhiteSpace c && blank r
  end.

Definition is_error (o : Obs) : bool :=
  match o with ToastedError _ _ => true | _ => false end.

Definition is_unhandled (o : Obs) : bool :=
  match o with Unhandled _ => true | _ => false end.

(** In this event [toast.error] returns, whatever it is called with. *)
Definition toast_error_returns (ev : Event) : Prop :=
  match ev with
  | Submit _ env | Settle _ _ env | RawSubmit _ env =>
      ∀ msg opts, env (ToastError msg opts) = Normal
  | _ => True
  end.

(** The only things the page does: post a normalized body to
    "/auth/signup", show the fixed success notification, show an error
    notification, navigate to "/dashboard". *)
Definition expected (o : Obs) : Prop :=
  match o with
  | Posted url body => url = "/auth/signup" ∧ normalized body = body
  | ToastedSuccess msg opts => msg = success_text ∧ opts = success_options
  | ToastedError _ opts => opts = error_options
  | Navigated path => path = "/dashboard"
  | Unhandled _ => True
  end.

(** Every request that was posted is accounted for: it waits, or its
    answer led to a navigation (done or pending) or to an error
    notification; and no rejection went unhandled. *)
Definition Balanced (s : State) : Prop :=
  count is_unhandled (log s) = 0
  ∧ count is_post (log s) =
      count is_navigation (log s) + length (timers s)
      + count is_error (log s) + length (inflight s).

(** A name of two blanks. *)
Definition blank_name : SignupForm :=
  {| name := "  "; email := "a@b.com"; password := "secret1" |}.

(** [toast.success] throws, every other call returns. *)
Definition success_toast_throws : Env :=
  λ op, match op with ToastSuccess _ _ => Thrown Nullish | _ => Normal end.

(** * Properties *)

(** ** The string built-ins *)

Lemma trimStart_clean s : starts_clean (trimStart s).
Proof.
  induction s as [|c r IH]; simpl; [done|].
  destruct (isWhiteSpace c) eqn:E; [done | exact E].
Qed.

Lemma trimStart_fixed s : starts_clean s → trimStart s = s.
Proof. destruct s as [|c r]; simpl; [done|]. by intros ->. Qed.

Lemma trimEnd_clean s : starts_clean s → starts_clean (trimEnd s).
Proof.
  destruct s as [|c r]; simpl; [done|]. intros E.
  destruct (trimEnd r); [by rewrite E | done].
Qed.

Lemma trimEnd_idemp s : trimEnd (trimEnd s) = trimEnd s.
Proof.
  induction s as [|c r IH]; simpl; [done|].
  destruct (trimEnd r) as [|c' r'] eqn:E.
  - destruct (isWhiteSpace c) eqn:Ec; simpl; [done | by rewrite Ec].
  - change (trimEnd (String c (String c' r'))) with
      (match trimEnd (String c' r') with
       | EmptyString => if isWhiteSpace c then EmptyString else String c EmptyString
       | r'' => String c r''
       end).
    by rewrite IH.
Qed.

Lemma trim_idemp s : trim (trim s) = trim s.
Proof.
  unfold trim.
  rewrite (trimStart_fixed (trimEnd (trimStart s)))
    by apply trimEnd_clean, trimStart_clean.
  apply trimEnd_idemp.
Qed.

Lemma trimStart_length s : String.length (trimStart s) ≤ String.length s.
Proof.
  induction s as [|c r IH]; simpl; [done|].
  destruct (isWhiteSpace c); simpl; lia.
Qed.

Lemma trimEnd_length s : String.length (trimEnd s) ≤ String.length s.
Proof.
  induction s as [|c r IH]; simpl; [done|].
  destruct (trimEnd r); [destruct (isWhiteSpace c)|]; simpl in *; lia.
Qed.

Lemma trim_length s : String.length (trim s) ≤ String.length s.
Proof.
  unfold trim. etrans; [apply trimEnd_length | apply trimStart_length].
Qed.

Lemma lowerChar_idemp c : lowerChar (lowerChar c) = lowerChar c.
Proof.
  destruct c as [[] [] [] [] [] [] [] []]; vm_compute; reflexivity.
Qed.

Lemma toLowerCase_idemp s : toLowerCase (toLowerCase s) = toLowerCase s.
Proof.
  induction s as [|c r IH]; simpl; [done|]. by rewrite lowerChar_idemp, IH.
Qed.

(** ** Validation *)

Section Validation.

Variable isEmail : string → bool.

Lemma resolver_cases d :
  resolver isEmail d =
    (if String.length (name d) <? 2
     then <["name" := "Name must be at least 2 characters"]>
     else id)
    ((if isEmail (email d) then id
      else <["email" := "Enter a valid email address"]>)
     ((if String.length (password d) <? 6
       then <["password" := "Password must be at least 6 characters"]>
       else id) ∅)).
Proof.
  unfold resolver, SignupSchema, Zod.string_min, Zod.string_email.
  destruct (String.length (name d) <? 2), (isEmail (email d)),
    (String.length (password d) <? 6); reflexivity.
Qed.

Lemma resolver_empty_iff d :
  resolver isEmail d = ∅ ↔
    2 ≤ String.length (name d) ∧ isEmail (email d) = true
    ∧ 6 ≤ String.length (password d).
Proof.
  rewrite resolver_cases.
  destruct (Nat.ltb_spec (String.length (name d)) 2) as [Hn|Hn],
    (isEmail (email d)) eqn:He,
    (Nat.ltb_spec (String.length (password d)) 6) as [Hp|Hp]; simpl.
  all: split;
    [ intros H; first [ by apply insert_non_empty in H | by repeat split ]
    | intros (?&?&?); first [ lia | done ] ].
Qed.

Lemma name_too_short d :
  String.length (name d) < 2 → resolver isEmail d ≠ ∅.
Proof. intros Hn Hv. apply resolver_empty_iff in Hv. lia. Qed.

Lemma resolver_lookup d :
  resolver isEmail d !! "name" =
    (if String.length (name d) <? 2
     then Some "Name must be at least 2 characters" else None)
  ∧ resolver isEmail d !! "email" =
      (if isEmail (email d) then None
       else Some "Enter a valid email address")
  ∧ resolver isEmail d !! "password" =
      (if String.length (password d) <? 6
       then Some "Password must be at least 6 characters" else None).
Proof.
  rewrite resolver_cases.
  destruct (String.length (name d) <? 2), (isEmail (email d)),
    (String.length (password d) <? 6); simpl; repeat split; reflexivity.
Qed.

Lemma resolver_dom d :
  dom (resolver isEmail d) ⊆ ({["name"; "email"; "password"]} : gset string).
Proof.
  rewrite resolver_cases.
  destruct (String.length (name d) <? 2), (isEmail (email d)),
    (String.length (password d) <? 6); simpl.
  all: rewrite ?dom_insert_L, ?dom_empty_L; set_unfold; tauto.
Qed.

(** C1.  The parse of a [SignupForm] reports no error exactly when the
    name has at least 2 characters, the email is in the email grammar and
    the password has at least 6 characters.  Each rule that fails puts
    its own fixed message under its field, a rule that holds puts
    nothing there, and no other key is present. *)
Theorem SignupSchema_validation d :
  (resolver isEmail d = ∅ ↔
     2 ≤ String.length (name d) ∧ isEmail (email d) = true
     ∧ 6 ≤ String.length (password d))
  ∧ resolver isEmail d !! "name" =
      (if String.length (name d) <? 2
       then Some "Name must be at least 2 characters" else None)
  ∧ resolver isEmail d !! "email" =
      (if isEmail (email d) then None
       else Some "Enter a valid email address")
  ∧ resolver isEmail d !! "password" =
      (if String.length (password d) <? 6
       then Some "Password must be at least 6 characters" else None)
  ∧ dom (resolver isEmail d) ⊆ ({["name"; "email"; "password"]} : gset string).
Proof.
  split; [apply resolver_empty_iff |].
  pose proof (resolver_lookup d) as (Hn & He & Hp).
  repeat split; auto using resolver_dom.
Qed.

End Validation.

(** ** The handler *)

Lemma exec_onSubmit d env s :
  exec (onSubmit d) env s =
    set_inflight (inflight s ++ awaiting d)
      (observe (Posted "/auth/signup" (normalized d)) (set_loading true s)).
Proof. reflexivity. Qed.

Lemma awaiting_request d r :
  awaiting d = [r] → req_url r = "/auth/signup" ∧ req_body r = normalized d.
Proof. intros H. injection H as <-. split; reflexivity. Qed.

Lemma awaiting_from_onSubmit d : Forall from_onSubmit (awaiting d).
Proof. repeat constructor. by exists d. Qed.


Lemma resume_failure r err env s :
  from_onSubmit r →
  env (ToastError (errorMessage err) error_options) = Normal →
  exec (req_resume r (Thrown err)) env s =
    set_loading false (observe (ToastedError (errorMessage err) error_options) s).
Proof.
  intros [d H] H1. injection H as <-. simpl.
  unfold error_options in *. rewrite H1. reflexivity.
Qed.

Lemma resume_frame r c env s :
  from_onSubmit r →
  let s' := exec (req_resume r c) env s in
  loading s' = false ∧ inflight s' = inflight s ∧ mounted s' = mounted s
  ∧ clock s' = clock s ∧ errors s' = errors s
  ∧ ∃ Δ, log s' = log s ++ Δ
      ∧ count is_navigation Δ = 0 ∧ count is_post Δ = 0
      ∧ (timers s' = timers s ∧ (c ≠ Normal → count is_success Δ = 0)
         ∨ c = Normal
           ∧ timers s' = timers s ++ [(clock s + 900, Navigate "/dashboard")]
           ∧ Δ = [ToastedSuccess success_text success_options]).
Proof.
  intros [d H]. injection H as <-.
  destruct c; simpl; repeat case_match; simpl.
  all: repeat split.
  all: eexists; split; [ rewrite <- ?app_assoc; reflexivity | ].
  all: split; [reflexivity|]; split; [reflexivity|].
  all: first [ right; repeat split; reflexivity
             | left; split; [reflexivity | intros Hc; first [congruence | reflexivity]] ].
Qed.

Lemma count_app f l1 l2 : count f (l1 ++ l2) = count f l1 + count f l2.
Proof. unfold count. by rewrite List.filter_app, length_app. Qed.

Lemma count_take_le f n l : count f (take n l) ≤ count f l.
Proof. rewrite <- (take_drop n l) at 2. rewrite count_app. lia. Qed.

Lemma order_app l Δ :
  (∀ n, count is_navigation (take n l) ≤ count is_success (take n l)) →
  count is_navigation Δ = 0 →
  ∀ n, count is_navigation (take n (l ++ Δ)) ≤ count is_success (take n (l ++ Δ)).
Proof.
  intros H HΔ n. rewrite take_app, !count_app.
  specialize (H n).
  pose proof (count_take_le is_navigation (n - length l) Δ). lia.
Qed.

Lemma order_navigated l p :
  (∀ n, count is_navigation (take n l) ≤ count is_success (take n l)) →
  count is_navigation l + 1 ≤ count is_success l →
  ∀ n, count is_navigation (take n (l ++ [Navigated p]))
       ≤ count is_success (take n (l ++ [Navigated p])).
Proof.
  intros H Hl n. rewrite take_app, !count_app.
  destruct (n - length l) as [|k] eqn:E.
  - specialize (H n). rewrite take_0.
    change (count is_navigation []) with 0. lia.
  - rewrite take_ge by lia. simpl. rewrite take_nil.
    change (count is_navigation [_]) with 1.
    change (count is_success [_]) with 0. lia.
Qed.

Lemma awaiting_length d : length (awaiting d) = 1.
Proof. reflexivity. Qed.

Section Machine.

Variable isEmail : string → bool.

Lemma Inv_init : Inv init.
Proof.
  split; simpl; auto; try done.
  intros n. by rewrite take_nil.
Qed.

(** [handleSubmit(onSubmit)] keeps the invariant, whether or not a request
    waits already. *)
Lemma Inv_handleSubmit s d env :
  Inv s → Inv (handleSubmit isEmail onSubmit d env s).
Proof.
  intros [Hr Hw Ht Hp Ho]. unfold handleSubmit. case_decide; [|by split].
  rewrite exec_onSubmit. split; simpl.
  - apply Forall_app. split; [done | apply awaiting_from_onSubmit].
  - intros _ Hnil. apply (f_equal length) in Hnil.
    rewrite length_app, awaiting_length in Hnil. simpl in Hnil. lia.
  - done.
  - rewrite !count_app.
    change (count is_navigation [_]) with 0.
    change (count is_success [_]) with 0. lia.
  - by apply order_app.
Qed.

Lemma Inv_step s ev : Inv s → Inv (step isEmail s ev).
Proof.
  intros HInv. pose proof HInv as [Hr Hw Ht Hp Ho].
  destruct ev as [d env|i c env|i|dt| |d env]; simpl.
  - (* a submit through the button *)
    destruct (mounted s && negb (loading s)); [|done].
    by apply Inv_handleSubmit.
  - (* a request is answered *)
    destruct (inflight s !! i) as [r|] eqn:Ei; [|done].
    assert (from_onSubmit r) as Hfrom.
    { eapply Forall_lookup_1; eauto. }
    pose proof (resume_frame r c env
                  (set_inflight (delete i (inflight s)) s) Hfrom)
      as (Hl & Hi & _ & Hc & _ & Δ & HΔ & Hnav & _ & Htim).
    simpl in Hi, Hc, HΔ, Htim.
    split.
    + rewrite Hi. by apply Forall_delete.
    + rewrite Hl. discriminate.
    + destruct Htim as [[-> _]|[_ [-> _]]]; [done|].
      apply Forall_app. split; [done|]. by repeat constructor.
    + rewrite HΔ, !count_app, Hnav.
      destruct Htim as [[-> _]|[_ [-> ->]]]; [lia|].
      rewrite length_app.
      change (count is_success [_]) with 1. simpl. lia.
    + rewrite HΔ. by apply order_app.
  - (* a timer goes off *)
    destruct (timers s !! i) as [[due cb]|] eqn:Ei; [|done].
    destruct (due <=? clock s); [|done].
    pose proof (lookup_lt_Some _ _ _ Ei) as Hlt.
    destruct cb as [p]. split; simpl; try done.
    + by apply Forall_delete.
    + rewrite !count_app, length_delete by (by rewrite Ei).
      change (count is_navigation [_]) with 1.
      change (count is_success [_]) with 0. lia.
    + apply order_navigated; [done | lia].
  - by split.
  - by split.
  - (* a submit past the button *)
    destruct (mounted s); [|done]. by apply Inv_handleSubmit.
Qed.

Lemma Inv_run s evs : Inv s → Inv (run isEmail s evs).
Proof.
  revert s. induction evs as [|ev evs IH]; intros s Hs; [done|].
  simpl. apply IH. by apply Inv_step.
Qed.

Lemma Inv_reachable evs : Inv (run isEmail init evs).
Proof. apply Inv_run, Inv_init. Qed.

Lemma run_snoc s evs ev :
  run isEmail s (evs ++ [ev]) = step isEmail (run isEmail s evs) ev.
Proof. unfold run. by rewrite foldl_app. Qed.

(** While every submit goes through the button, one request waits when
    [loading] is true and none when it is false. *)
Lemma single_step s ev :
  Inv s → through_button ev →
  length (inflight s) = (if loading s then 1 else 0) →
  length (inflight (step isEmail s ev)) =
    (if loading (step isEmail s ev) then 1 else 0).
Proof.
  intros [Hr _ _ _ _] Hbtn Hone.
  destruct ev as [d env|i c env|i|dt| |d env]; simpl; try done.
  - destruct (mounted s && negb (loading s)) eqn:E; [|done].
    apply andb_true_iff in E as [_ Hl]. apply negb_true_iff in Hl.
    rewrite Hl in Hone. unfold handleSubmit. case_decide.
    + rewrite exec_onSubmit. simpl. rewrite length_app, awaiting_length. lia.
    + simpl. by rewrite Hl.
  - destruct (inflight s !! i) as [r|] eqn:Ei; [|done].
    assert (from_onSubmit r) as Hfrom by (eapply Forall_lookup_1; eauto).
    pose proof (lookup_lt_Some _ _ _ Ei) as Hlt.
    pose proof (resume_frame r c env
                  (set_inflight (delete i (inflight s)) s) Hfrom)
      as (Hl & Hi & _).
    simpl in Hi. rewrite Hl, Hi, length_delete by eauto.
    destruct (loading s); lia.
  - destruct (timers s !! i) as [[due [p]]|]; [|done].
    by destruct (due <=? clock s).
Qed.

Lemma single_run evs :
  Forall through_button evs →
  length (inflight (run isEmail init evs)) =
    (if loading (run isEmail init evs) then 1 else 0).
Proof.
  induction evs as [|ev evs IH] using rev_ind; intros Hbtn; [done|].
  apply Forall_app in Hbtn as [Hevs Hev].
  inversion_clear Hev as [|? ? Hev' _].
  rewrite run_snoc. apply single_step; [apply Inv_reachable | done | auto].
Qed.

End Machine.

(** ** The error text *)

Lemma errorMessage_first_nonempty err :
  errorMessage err =
    first_nonempty
      [err_data err ≫= ApiError.message;
       err_data err ≫= ApiError.error;
       err_message err]
      "Signup failed.".
Proof.
  unfold errorMessage, or_else.
  destruct (err_data err ≫= ApiError.message) as [[|? ?]|],
    (err_data err ≫= ApiError.error) as [[|? ?]|],
    (err_message err) as [[|? ?]|]; reflexivity.
Qed.

Lemma first_nonempty_nonempty cs dflt :
  dflt ≠ "" → first_nonempty cs dflt ≠ "".
Proof.
  intros Hd. induction cs as [|[[|c r]|] cs IH]; simpl; auto.
Qed.

Section Submission.

Variable isEmail : string → bool.

Abbreviation step := (step isEmail).
Abbreviation run := (run isEmail).

(** C3.  When a request fails with [err], the text of the error
    notification is the first non-empty one of: the [message] of the
    response body, the [error] of the response body, the message of the
    error itself; and "Signup failed." when there is none.  A body
    [{message: "Email taken"}] gives "Email taken", a body [{error: "x"}]
    without message gives "x", and a body with neither, in an error
    without message, gives "Signup failed.". *)
Theorem failure_text evs i err env :
  let s := run init evs in
  i < length (inflight s) →
  env (ToastError (errorMessage err) error_options) = Normal →
  log (step s (Settle i (Thrown err) env)) =
    log s ++
      [ToastedError
         (first_nonempty
            [err_data err ≫= ApiError.message;
             err_data err ≫= ApiError.error;
             err_message err]
            "Signup failed.")
         error_options]
  ∧ (∀ e m, errorMessage (with_body (Some "Email taken") e m) = "Email taken")
  ∧ (∀ m, errorMessage (with_body None (Some "x") m) = "x")
  ∧ errorMessage (with_body None None None) = "Signup failed.".
Proof.
  intros s Hi Henv. split; [|by repeat split].
  destruct (lookup_lt_is_Some_2 _ _ Hi) as [r Hr].
  pose proof (Inv_reachable isEmail evs) as [Hreq _ _ _ _]. fold s in Hreq.
  assert (from_onSubmit r) as Hfrom by (eapply Forall_lookup_1; eauto).
  simpl. rewrite Hr, resume_failure by done.
  by rewrite errorMessage_first_nonempty.
Qed.


(** C4.  Whenever a request that is waiting is answered, the handler runs
    to its end and leaves [loading] false: when the request resolved, when
    it rejected, and whichever of the calls made after it throws.  The
    request answered is gone and the others wait on; while every submit
    went through the button there is no other. *)
Theorem settle_clears_loading evs i c env :
  let s := run init evs in
  i < length (inflight s) →
  loading (step s (Settle i c env)) = false
  ∧ inflight (step s (Settle i c env)) = delete i (inflight s)
  ∧ (Forall through_button evs → inflight (step s (Settle i c env)) = []).
Proof.
  intros s Hi.
  destruct (lookup_lt_is_Some_2 _ _ Hi) as [r Hr].
  pose proof (Inv_reachable isEmail evs) as [Hreq _ _ _ _].
  fold s in Hreq.
  assert (from_onSubmit r) as Hfrom by (eapply Forall_lookup_1; eauto).
  simpl. rewrite Hr.
  pose proof (resume_frame r c env
                (set_inflight (delete i (inflight s)) s) Hfrom)
    as (Hl & Hin & _).
  split; [done|]. split; [done|]. intros Hbtn. rewrite Hin. simpl.
  pose proof (single_run isEmail evs Hbtn) as Hone. fold s in Hone.
  apply nil_length_inv. rewrite length_delete by eauto.
  destruct (loading s); lia.
Qed.

(** C5, as the page has it.  While [loading] is true the submit button is
    disabled, and a submit through it changes nothing.  So while every
    submit goes through the button at most one request waits, and one does
    exactly while [loading] is true.  In every run a request waits
    whenever [loading] is true.  The handler itself has no guard: a valid
    submit that reaches it past the button is posted whatever [loading]
    is, and one more request waits. *)
Theorem single_flight evs d env :
  let s := run init evs in
  (loading s = true → step s (Submit d env) = s)
  ∧ (Forall through_button evs →
     length (inflight s) ≤ 1
     ∧ length (inflight s) = (if loading s then 1 else 0))
  ∧ (loading s = true → inflight s ≠ [])
  ∧ (mounted s = true → resolver isEmail d = ∅ →
     log (step s (RawSubmit d env)) =
       log s ++
         [Posted "/auth/signup"
            {| name := trim (name d);
               email := toLowerCase (trim (email d));
               password := password d |}]
     ∧ length (inflight (step s (RawSubmit d env))) = S (length (inflight s))).
Proof.
  intros s. pose proof (Inv_reachable isEmail evs) as [_ Hwait _ _ _].
  fold s in Hwait. split; [|split; [|split]].
  - intros Hl. simpl. rewrite Hl. by rewrite andb_false_r.
  - intros Hbtn. pose proof (single_run isEmail evs Hbtn) as Hone.
    fold s in Hone. split; [|done]. rewrite Hone. destruct (loading s); lia.
  - done.
  - intros Hm Hv. simpl. rewrite Hm. unfold handleSubmit.
    rewrite decide_True by done. rewrite exec_onSubmit. simpl.
    split; [done|]. rewrite length_app, awaiting_length. lia.
Qed.

(** C6.  Submitting field values the resolver rejects sends nothing: the
    log, the waiting requests, the timers and [loading] are what they
    were, and the form only stores the field errors; the same holds of a
    submit past the button. *)
Theorem invalid_submit_sends_nothing s d env :
  resolver isEmail d ≠ ∅ →
  let s' := step s (Submit d env) in
  log s' = log s ∧ inflight s' = inflight s ∧ loading s' = loading s
  ∧ timers s' = timers s
  ∧ errors s' =
      (if mounted s && negb (loading s) then resolver isEmail d else errors s)
  ∧ (let s'' := step s (RawSubmit d env) in
     log s'' = log s ∧ inflight s'' = inflight s ∧ loading s'' = loading s
     ∧ timers s'' = timers s
     ∧ errors s'' = (if mounted s then resolver isEmail d else errors s)).
Proof.
  intros Hv. cbn zeta. simpl. unfold handleSubmit.
  rewrite !decide_False by done.
  destruct (mounted s) eqn:Hm, (loading s) eqn:Hl; simpl;
    rewrite ?Hl; by repeat split.
Qed.


(** C9.  The resolver sees the field values as typed, and the handler
    trims them afterwards.  With any email [e] of the grammar, the name
    " A " has length 3 and passes, and the name that is sent is "A", of
    length 1, which the schema rejects. *)
Theorem validation_precedes_normalization e env :
  isEmail e = true →
  let d := {| name := " A "; email := e; password := "secret1" |} in
  resolver isEmail d = ∅
  ∧ String.length (name d) = 3
  ∧ log (step init (Submit d env)) =
      [Posted "/auth/signup"
         {| name := "A"; email := toLowerCase (trim e); password := "secret1" |}]
  ∧ String.length (name (normalized d)) = 1
  ∧ resolver isEmail (normalized d) !! "name" =
      Some "Name must be at least 2 characters".
Proof.
  intros He d.
  assert (resolver isEmail d = ∅) as Hv.
  { apply resolver_empty_iff. simpl. repeat split; [lia | done | lia]. }
  split; [done|]. split; [done|]. split.
  - simpl. unfold handleSubmit. by rewrite decide_True.
  - split; [done|]. by destruct (resolver_lookup isEmail (normalized d)) as [-> _].
Qed.

(** The handler does not look at [mounted]. *)
Lemma exec_set_mounted p env b s :
  exec p env (set_mounted b s) = set_mounted b (exec p env s).
Proof.
  revert s. induction p as [| |op k IH]; intros s; [done..|].
  destruct op; simpl; repeat case_match;
    solve [ reflexivity
          | exact (IH _ s)
          | exact (IH _ (set_loading _ s))
          | exact (IH _ (observe _ s))
          | exact (IH _ (set_timers _ s)) ].
Qed.

(** C8, as the page has it.  Tearing the component down guards nothing:
    on a torn-down component an answer to a waiting request runs the rest
    of the handler, and a timer that is due navigates, exactly as they do
    on the mounted one. *)
Theorem teardown_guards_nothing s i c env j :
  step s Unmount = set_mounted false s
  ∧ step (set_mounted false s) (Settle i c env) =
      set_mounted false (step s (Settle i c env))
  ∧ step (set_mounted false s) (Fire j) =
      set_mounted false (step s (Fire j)).
Proof.
  split; [done|]. split; simpl.
  - destruct (inflight s !! i) as [r|]; [|done].
    by rewrite <- exec_set_mounted.
  - destruct (timers s !! j) as [[due [p]]|]; [|done].
    by destruct (due <=? clock s).
Qed.

End Submission.

(** C10.  A candidate of the fallback chain that is the empty string is
    passed over like one that is absent: with [message: ""] in the
    response body the text is that of the [error] field, else the message
    of the error itself, else "Signup failed."; and the text is never
    empty. *)
Theorem empty_candidate_is_skipped err e m :
  errorMessage err ≠ ""
  ∧ errorMessage (with_body (Some "") e m) = errorMessage (with_body None e m)
  ∧ errorMessage (with_body (Some "") e m) =
      first_nonempty [e; m] "Signup failed."
  ∧ errorMessage (with_body (Some "") (Some "") m) =
      first_nonempty [m] "Signup failed."
  ∧ errorMessage (with_body (Some "") (Some "") (Some "")) = "Signup failed.".
Proof.
  split.
  - rewrite errorMessage_first_nonempty. by apply first_nonempty_nonempty.
  - rewrite !errorMessage_first_nonempty. by repeat split.
Qed.

(** ** The properties at concrete inputs *)

Lemma SignupSchema_validation_witness :
  (2 ≤ String.length (name valid_form)
   ∧ Sample.isEmail (email valid_form) = true
   ∧ 6 ≤ String.length (password valid_form))
  ∧ resolver Sample.isEmail valid_form = ∅.
Proof.
  assert (2 ≤ String.length (name valid_form)
          ∧ Sample.isEmail (email valid_form) = true
          ∧ 6 ≤ String.length (password valid_form)) as H.
  { repeat split; vm_compute; lia. }
  split; [exact H|].
  exact (proj2 (proj1 (SignupSchema_validation Sample.isEmail valid_form)) H).
Defined.



Lemma failure_text_witness :
  log (step Sample.isEmail submitted (Settle 0 (Thrown body_error_x) quiet)) =
    log submitted ++ [ToastedError "x" error_options].
Proof.
  apply (failure_text Sample.isEmail [Submit valid_form quiet] 0
           body_error_x quiet);
    [vm_compute; lia | reflexivity].
Defined.

Lemma settle_clears_loading_witness :
  loading submitted = true
  ∧ loading (step Sample.isEmail submitted
               (Settle 0 (Thrown Nullish) hostile)) = false.
Proof.
  split; [reflexivity|].
  destruct (settle_clears_loading Sample.isEmail [Submit valid_form quiet] 0
              (Thrown Nullish) hostile) as (Hl & _); [vm_compute; lia|].
  exact Hl.
Defined.

Lemma single_flight_witness :
  loading submitted = true
  ∧ step Sample.isEmail submitted (Submit valid_form quiet) = submitted
  ∧ length (inflight submitted) = 1
  ∧ length (inflight (step Sample.isEmail submitted
                        (RawSubmit valid_form quiet))) = 2.
Proof.
  destruct (single_flight Sample.isEmail [Submit valid_form quiet]
              valid_form quiet) as (Hblocked & Hone & _ & Hraw).
  split; [reflexivity|]. split; [apply Hblocked; reflexivity|].
  split.
  - apply Hone. repeat constructor.
  - apply Hraw; [reflexivity | vm_compute; reflexivity].
Defined.

(** C5, as the specification has it, fails on the page: a second submit
    event reaches the handler while the first request waits, having been
    fired before the button was rendered disabled.  Two requests are then
    posted and wait together, and once one of them is answered [loading]
    is false, and the button enabled, while the other still waits. *)
Lemma single_flight_counterexample :
  let s1 := run Sample.isEmail init [Submit valid_form quiet] in
  let s2 := step Sample.isEmail s1 (RawSubmit valid_form quiet) in
  let s3 := step Sample.isEmail s2 (Settle 0 Normal quiet) in
  loading s1 = true
  ∧ count is_post (log s2) = 2
  ∧ length (inflight s2) = 2
  ∧ loading s3 = false
  ∧ length (inflight s3) = 1.
Proof. repeat split. Qed.

Lemma invalid_submit_sends_nothing_witness :
  log (step Sample.isEmail init (Submit short_name quiet)) = []
  ∧ inflight (step Sample.isEmail init (Submit short_name quiet)) = []
  ∧ loading (step Sample.isEmail init (Submit short_name quiet)) = false.
Proof.
  destruct (invalid_submit_sends_nothing Sample.isEmail init short_name quiet)
    as (Hlog & Hreq & Hload & _).
  - intros H. apply (f_equal (λ m : gmap string string, m !! "name")) in H.
    vm_compute in H. discriminate H.
  - repeat split; assumption.
Defined.


Lemma validation_precedes_normalization_witness :
  resolver Sample.isEmail
    {| name := " A "; email := "a@b.com"; password := "secret1" |} = ∅
  ∧ String.length
      (name (normalized
               {| name := " A "; email := "a@b.com"; password := "secret1" |}))
    = 1.
Proof.
  destruct (validation_precedes_normalization Sample.isEmail "a@b.com" quiet)
    as (Hv & _ & _ & Hlen & _); [reflexivity|].
  split; assumption.
Defined.

(** C8, as the specification has it, fails on the page: [valid_form] is
    submitted and the component is torn down while the request waits.  The
    answer then still runs the rest of the handler, which notifies, writes
    [loading] and registers the timer, and 900 ms later the timer
    navigates to "/dashboard". *)
Lemma teardown_guard_counterexample :
  let s := run Sample.isEmail init [Submit valid_form quiet; Unmount] in
  let s' := run Sample.isEmail s [Settle 0 Normal quiet; Tick 900; Fire 0] in
  mounted s = false
  ∧ loading s = true ∧ loading s' = false
  ∧ step Sample.isEmail s (Settle 0 Normal quiet) ≠ s
  ∧ log s' =
      log s ++ [ToastedSuccess success_text success_options;
                Navigated "/dashboard"].
Proof.
  repeat split.
  intros H. apply (f_equal loading) in H. discriminate H.
Qed.


(** * Further properties of the page *)

(** ** The payload *)

Lemma isWhiteSpace_lowerChar c : isWhiteSpace (lowerChar c) = isWhiteSpace c.
Proof.
  destruct c as [[] [] [] [] [] [] [] []]; vm_compute; reflexivity.
Qed.

Lemma trimStart_toLowerCase s :
  trimStart (toLowerCase s) = toLowerCase (trimStart s).
Proof.
  induction s as [|c r IH]; simpl; [done|].
  rewrite isWhiteSpace_lowerChar. by destruct (isWhiteSpace c).
Qed.

Lemma trimEnd_toLowerCase s :
  trimEnd (toLowerCase s) = toLowerCase (trimEnd s).
Proof.
  induction s as [|c r IH]; simpl; [done|].
  rewrite IH, isWhiteSpace_lowerChar.
  destruct (trimEnd r); simpl; [by destruct (isWhiteSpace c) | done].
Qed.

Lemma trim_toLowerCase s : trim (toLowerCase s) = toLowerCase (trim s).
Proof. unfold trim. by rewrite trimStart_toLowerCase, trimEnd_toLowerCase. Qed.

Lemma normalized_idemp d : normalized (normalized d) = normalized d.
Proof.
  unfold normalized. simpl.
  by rewrite trim_idemp, trim_toLowerCase, trim_idemp, toLowerCase_idemp.
Qed.

Lemma trimStart_blank s : blank s = true → trimStart s = "".
Proof.
  induction s as [|c r IH]; simpl; [done|].
  intros [-> Hr]%andb_true_iff. auto.
Qed.

Lemma trim_blank s : blank s = true → trim s = "".
Proof. intros H. unfold trim. by rewrite trimStart_blank. Qed.

(** X5.  The body [onSubmit] posts is in normal form whatever the field
    values: trimming its name or its email, or putting its email in lower
    case, changes nothing, so that normalizing it again gives it back; the
    name is no longer than what was typed, and the password is the one
    typed. *)
Theorem payload_normal_form d env s :
  ∃ body,
    log (exec (onSubmit d) env s) = log s ++ [Posted "/auth/signup" body]
    ∧ trim (name body) = name body
    ∧ trim (email body) = email body
    ∧ toLowerCase (email body) = email body
    ∧ password body = password d
    ∧ String.length (name body) ≤ String.length (name d)
    ∧ normalized body = body.
Proof.
  exists (normalized d). rewrite exec_onSubmit. simpl.
  repeat split.
  - apply trim_idemp.
  - by rewrite trim_toLowerCase, trim_idemp.
  - apply toLowerCase_idemp.
  - apply trim_length.
  - apply normalized_idemp.
Qed.

(** ** What an answer does *)

Lemma resume_effects r c env s :
  from_onSubmit r →
  let s' := exec (req_resume r c) env s in
  ∃ Δ ts,
    log s' = log s ++ Δ
    ∧ timers s' = timers s ++ ts
    ∧ Forall expected Δ
    ∧ count is_post Δ = 0 ∧ count is_navigation Δ = 0
    ∧ ((∀ msg opts, env (ToastError msg opts) = Normal) →
       count is_unhandled Δ = 0 ∧ length ts + count is_error Δ = 1).
Proof.
  intros [d H]. injection H as <-.
  destruct c; simpl; repeat case_match; simpl.
  all: eexists; eexists.
  all: split; [rewrite <- ?app_assoc; reflexivity|].
  all: split; [first [reflexivity | symmetry; apply app_nil_r]|].
  all: split; [by repeat constructor|].
  all: split; [reflexivity|]; split; [reflexivity|].
  all: intros Hok;
    try match goal with
        | E : _ (ToastError _ _) = Thrown _ |- _ =>
            rewrite Hok in E; discriminate E
        end.
  all: split; reflexivity.
Qed.

Section Accounting.

Variable isEmail : string → bool.

Lemma expected_handleSubmit s d env :
  Forall expected (log s) →
  Forall expected (log (handleSubmit isEmail onSubmit d env s)).
Proof.
  intros Hlog. unfold handleSubmit. case_decide; [|done].
  rewrite exec_onSubmit. simpl.
  apply Forall_app. split; [done|].
  repeat constructor. apply normalized_idemp.
Qed.

Lemma expected_step s ev :
  Inv s → Forall expected (log s) → Forall expected (log (step isEmail s ev)).
Proof.
  intros [Hr _ Ht _ _] Hlog.
  destruct ev as [d env|i c env|i|dt| |d env]; simpl.
  - destruct (mounted s && negb (loading s)); [|done].
    by apply expected_handleSubmit.
  - destruct (inflight s !! i) as [r|] eqn:Ei; [|done].
    assert (from_onSubmit r) as Hfrom by (eapply Forall_lookup_1; eauto).
    destruct (resume_effects r c env
                (set_inflight (delete i (inflight s)) s) Hfrom)
      as (Δ & ts & -> & _ & HΔ & _).
    apply Forall_app. by split.
  - destruct (timers s !! i) as [[due cb]|] eqn:Ei; [|done].
    destruct (due <=? clock s); [|done].
    apply (Forall_lookup_1 _ _ _ _ Ht) in Ei. simpl in Ei. subst cb. simpl.
    apply Forall_app. split; [done|]. by repeat constructor.
  - done.
  - done.
  - destruct (mounted s); [|done]. by apply expected_handleSubmit.
Qed.

Lemma Balanced_handleSubmit s d env :
  Balanced s → Balanced (handleSubmit isEmail onSubmit d env s).
Proof.
  intros [Hu Hb]. unfold handleSubmit. case_decide; [|done].
  rewrite exec_onSubmit. split; simpl.
  - rewrite count_app, Hu. reflexivity.
  - rewrite !count_app, length_app, Hb.
    change (count is_post [_]) with 1.
    change (count is_navigation [_]) with 0.
    change (count is_error [_]) with 0. simpl. lia.
Qed.

Lemma Balanced_step s ev :
  Inv s → Balanced s → toast_error_returns ev → Balanced (step isEmail s ev).
Proof.
  intros [Hr _ _ _ _] HB Hok. pose proof HB as [Hu Hb].
  destruct ev as [d env|i c env|i|dt| |d env]; simpl.
  - destruct (mounted s && negb (loading s)); [|done].
    by apply Balanced_handleSubmit.
  - destruct (inflight s !! i) as [r|] eqn:Ei; [|done].
    assert (from_onSubmit r) as Hfrom by (eapply Forall_lookup_1; eauto).
    pose proof (lookup_lt_Some _ _ _ Ei) as Hlt.
    pose proof (resume_frame r c env
                  (set_inflight (delete i (inflight s)) s) Hfrom)
      as (_ & Hin & _).
    destruct (resume_effects r c env
                (set_inflight (delete i (inflight s)) s) Hfrom)
      as (Δ & ts & HΔ & Hts & _ & Hpost & Hnav & Hrest).
    destruct (Hrest Hok) as [Hunh Hone'].
    simpl in Hin, HΔ, Hts. split.
    + rewrite HΔ, count_app, Hu, Hunh. reflexivity.
    + rewrite HΔ, Hts, Hin, !count_app, length_app, Hpost, Hnav, Hb.
      rewrite length_delete by eauto. lia.
  - destruct (timers s !! i) as [[due [p]]|] eqn:Ei; [|done].
    destruct (due <=? clock s); [|done].
    pose proof (lookup_lt_Some _ _ _ Ei) as Hlt.
    split; simpl.
    + rewrite count_app, Hu. reflexivity.
    + rewrite !count_app, Hb, length_delete by (by rewrite Ei).
      change (count is_post [_]) with 0.
      change (count is_navigation [_]) with 1.
      change (count is_error [_]) with 0. lia.
  - done.
  - done.
  - destruct (mounted s); [|done]. by apply Balanced_handleSubmit.
Qed.

(** X9.  In every run, all the page ever does is post a normalized body
    to "/auth/signup", show the fixed success notification or an error
    notification with the fixed options, and navigate to "/dashboard". *)
Theorem only_expected_effects evs :
  Forall expected (log (run isEmail init evs)).
Proof.
  induction evs as [|ev evs IH] using rev_ind; [constructor|].
  rewrite run_snoc. apply expected_step; [apply Inv_reachable | done].
Qed.

(** X8.  In a run in which [toast.error] never throws, every request that
    was posted is accounted for: the posts are as many as the navigations,
    done and pending, the error notifications and the requests still
    waiting taken together; and no rejection is left unhandled. *)
Theorem requests_accounted evs :
  Forall toast_error_returns evs →
  let s := run isEmail init evs in
  count is_post (log s) =
    count is_navigation (log s) + length (timers s)
    + count is_error (log s) + length (inflight s)
  ∧ count is_unhandled (log s) = 0.
Proof.
  intros Hok. cut (Balanced (run isEmail init evs)).
  { intros [? ?]. by split. }
  induction evs as [|ev evs IH] using rev_ind; [by split|].
  apply Forall_app in Hok as [Hevs Hev]. inversion_clear Hev as [|? ? Hev' _].
  rewrite run_snoc. apply Balanced_step; [apply Inv_reachable | auto | exact Hev'].
Qed.

(** X7.  When [toast.error] returns, the answer to a waiting request has
    exactly one of two outcomes, whether the request resolved or rejected
    and whichever other call throws: the navigation timer is registered,
    or an error notification is shown; and nothing is left unhandled.  In
    particular an exception of [toast.success] after a resolved request is
    reported like a failed signup, with no navigation. *)
Theorem answer_navigates_or_reports evs i c env :
  let s := run isEmail init evs in
  i < length (inflight s) →
  (∀ msg opts, env (ToastError msg opts) = Normal) →
  let s' := step isEmail s (Settle i c env) in
  length (timers s') + count is_error (log s') =
    length (timers s) + count is_error (log s) + 1
  ∧ count is_unhandled (log s') = count is_unhandled (log s)
  ∧ (∀ e, c = Normal →
          env (ToastSuccess success_text success_options) = Thrown e →
          log s' = log s ++ [ToastedError (errorMessage e) error_options]
          ∧ timers s' = timers s).
Proof.
  intros s Hi Hok s'. subst s'.
  destruct (lookup_lt_is_Some_2 _ _ Hi) as [r Hr].
  pose proof (Inv_reachable isEmail evs) as [Hreq _ _ _ _]. fold s in Hreq.
  assert (from_onSubmit r) as Hfrom by (eapply Forall_lookup_1; eauto).
  simpl. rewrite Hr.
  destruct (resume_effects r c env
              (set_inflight (delete i (inflight s)) s) Hfrom)
    as (Δ & ts & HΔ & Hts & _ & _ & _ & Hrest).
  destruct (Hrest Hok) as [Hunh Hone]. simpl in HΔ, Hts.
  split; [|split].
  - rewrite HΔ, Hts, count_app, length_app. lia.
  - rewrite HΔ, count_app, Hunh. lia.
  - intros e -> He. destruct Hfrom as [d Hd]. injection Hd as <-. simpl.
    unfold success_text, success_options in He. rewrite He. simpl.
    change {| duration := 2200; position := "top-center";
              background := "linear-gradient(90deg,#fee2e2,#e0f2fe)" |}
      with error_options.
    rewrite Hok. by split.
Qed.

(** X10.  As soon as a waiting request is answered, in whichever way, the
    form of the mounted page takes a submit again: valid field values are
    posted at once.  This is the retry after a failure, and also a second
    signup in the 900 ms between a success and the navigation.  The new
    request takes the place of the one answered; while every submit went
    through the button it is the only one that waits. *)
Theorem resubmit_after_answer evs i c env d env' :
  let s := run isEmail init evs in
  mounted s = true →
  i < length (inflight s) →
  resolver isEmail d = ∅ →
  let s1 := step isEmail s (Settle i c env) in
  let s2 := step isEmail s1 (Submit d env') in
  log s2 =
    log s1 ++
      [Posted "/auth/signup"
         {| name := trim (name d);
            email := toLowerCase (trim (email d));
            password := password d |}]
  ∧ length (inflight s2) = length (inflight s)
  ∧ loading s2 = true
  ∧ (Forall through_button evs → length (inflight s2) = 1).
Proof.
  intros s Hm Hi Hv s1 s2.
  destruct (lookup_lt_is_Some_2 _ _ Hi) as [r Hr].
  pose proof (Inv_reachable isEmail evs) as [Hreq _ _ _ _]. fold s in Hreq.
  assert (from_onSubmit r) as Hfrom by (eapply Forall_lookup_1; eauto).
  assert (loading s1 = false ∧ mounted s1 = true
          ∧ inflight s1 = delete i (inflight s)) as (Hl1 & Hm1 & Hin1).
  { subst s1. simpl. rewrite Hr.
    pose proof (resume_frame r c env
                  (set_inflight (delete i (inflight s)) s) Hfrom)
      as (Hl & Hin & Hmo & _).
    split; [done|]. split; [by rewrite Hmo | done]. }
  assert (length (inflight s2) = length (inflight s)) as Hlen.
  { subst s2. simpl. rewrite Hm1, Hl1. simpl.
    unfold handleSubmit. rewrite decide_True by done.
    rewrite exec_onSubmit. simpl.
    rewrite length_app, awaiting_length, Hin1, length_delete by eauto. lia. }
  split; [|split; [done|split]].
  - subst s2. simpl. rewrite Hm1, Hl1. simpl.
    unfold handleSubmit. rewrite decide_True by done.
    by rewrite exec_onSubmit.
  - subst s2. simpl. rewrite Hm1, Hl1. simpl.
    unfold handleSubmit. rewrite decide_True by done.
    by rewrite exec_onSubmit.
  - intros Hbtn. rewrite Hlen.
    pose proof (single_run isEmail evs Hbtn) as Hone. fold s in Hone.
    destruct (loading s); lia.
Qed.

(** X6.  A name made of white space only passes the schema as soon as it
    has two characters, and the name that is posted is then the empty
    string. *)
Theorem blank_name_posted_empty s d env :
  mounted s = true → loading s = false →
  blank (name d) = true → 2 ≤ String.length (name d) →
  isEmail (email d) = true → 6 ≤ String.length (password d) →
  log (step isEmail s (Submit d env)) =
    log s ++
      [Posted "/auth/signup"
         {| name := "";
            email := toLowerCase (trim (email d));
            password := password d |}].
Proof.
  intros Hm Hl Hb Hn He Hp. simpl. rewrite Hm, Hl. simpl.
  unfold handleSubmit.
  rewrite decide_True by (by apply resolver_empty_iff).
  rewrite exec_onSubmit. simpl. unfold normalized. by rewrite trim_blank.
Qed.

End Accounting.

(** ** The view *)

Section PageProperties.

Variable isEmail : string → bool.

Lemma core_page_run p evs :
  core (page_run isEmail p evs) = run isEmail (core p) (component_events evs).
Proof.
  revert p. induction evs as [|[ev|] evs IH]; intros p; [done| |].
  - simpl. by rewrite IH.
  - simpl. rewrite IH. by destruct (mounted (core p)).
Qed.

(** X2.  However submits (through the button or past it), answers, timers
    and clicks on the reveal button follow one another, a request waits
    whenever the submit button is disabled or reads "Creating Account...":
    the button never stays blocked with nothing pending.  While every
    submit goes through the button the converse holds too: the button is
    disabled, and reads "Creating Account...", exactly while one request
    waits, and it is enabled, and reads "Create Account", exactly while
    none does. *)
Theorem button_shows_waiting_request evs :
  let p := page_run isEmail mount evs in
  (submit_disabled (render p) = true → inflight (core p) ≠ [])
  ∧ (submit_label (render p) = "Creating Account..." → inflight (core p) ≠ [])
  ∧ (submit_label (render p) = "Creating Account..."
     ↔ submit_disabled (render p) = true)
  ∧ (Forall through_button (component_events evs) →
     (submit_disabled (render p) = true ↔ length (inflight (core p)) = 1)
     ∧ (submit_label (render p) = "Creating Account..."
        ↔ length (inflight (core p)) = 1)
     ∧ (submit_disabled (render p) = false ↔ inflight (core p) = [])
     ∧ (submit_label (render p) = "Create Account" ↔ inflight (core p) = [])).
Proof.
  intros p. subst p.
  pose proof (core_page_run mount evs) as Hc.
  change (core mount) with init in Hc.
  pose proof (Inv_reachable isEmail (component_events evs)) as [_ Hwait _ _ _].
  rewrite <- Hc in Hwait. simpl.
  split; [done|]. split; [|split].
  - destruct (loading (core (page_run isEmail mount evs))); [auto | done].
  - by destruct (loading (core (page_run isEmail mount evs))).
  - intros Hbtn.
    pose proof (single_run isEmail (component_events evs) Hbtn) as Hone.
    rewrite <- Hc in Hone.
    destruct (loading (core (page_run isEmail mount evs))).
    + repeat split; intros H; try done; rewrite H in Hone; done.
    + apply nil_length_inv in Hone. rewrite Hone. by repeat split.
Qed.

(** X3.  A click on the reveal button of the mounted page flips the type
    of the password input between "password" and "text", and the icon with
    it, also while a request waits; it leaves the component, and so the
    rest of the view, as they are; and a second click undoes the first.
    No event of the component changes what the button set. *)
Theorem reveal_button_toggles p ev :
  mounted (core p) = true →
  let p' := page_step isEmail p TogglePassword in
  core p' = core p
  ∧ password_type (render p') =
      (if String.eqb (password_type (render p)) "password"
       then "text" else "password")
  ∧ (password_type (render p') = "text" ↔ toggle_icon (render p') = EyeOff)
  ∧ submit_disabled (render p') = submit_disabled (render p)
  ∧ page_step isEmail p' TogglePassword = p
  ∧ password_type (render (page_step isEmail p (Component ev))) =
      password_type (render p).
Proof.
  intros Hm. destruct p as [s show]. simpl in *. rewrite Hm. simpl.
  rewrite Hm, negb_involutive. destruct show; by repeat split.
Qed.

(** X4.  Every submit of the idle form replaces the error paragraphs by
    those of the values submitted: under each field the message of its rule
    when the rule fails and no paragraph when it holds, whatever was shown
    before; after a valid submit none is left. *)
Theorem submit_refreshes_errors p d env :
  mounted (core p) = true → loading (core p) = false →
  let v := render (page_step isEmail p (Component (Submit d env))) in
  name_error v =
    (if String.length (name d) <? 2
     then Some "Name must be at least 2 characters" else None)
  ∧ email_error v =
      (if isEmail (email d) then None else Some "Enter a valid email address")
  ∧ password_error v =
      (if String.length (password d) <? 6
       then Some "Password must be at least 6 characters" else None).
Proof.
  intros Hm Hl. simpl. rewrite Hm, Hl. simpl.
  assert (errors (handleSubmit isEmail onSubmit d env (core p))
          = resolver isEmail d) as ->.
  { unfold handleSubmit. case_decide as Hv; [|done].
    rewrite exec_onSubmit. simpl. by rewrite Hv. }
  apply resolver_lookup.
Qed.

(** X1.  A submit of the form nobody typed into, which holds the default
    values, sends nothing whatever the email grammar: the log and the
    waiting requests stay as they are, the button stays enabled, and the
    messages of the name rule and of the password rule are shown. *)
Theorem pristine_submit_rejected p env :
  mounted (core p) = true → loading (core p) = false →
  let p' := page_step isEmail p (Component (Submit defaultValues env)) in
  log (core p') = log (core p)
  ∧ inflight (core p') = inflight (core p)
  ∧ submit_disabled (render p') = false
  ∧ name_error (render p') = Some "Name must be at least 2 characters"
  ∧ password_error (render p') = Some "Password must be at least 6 characters".
Proof.
  intros Hm Hl.
  assert (resolver isEmail defaultValues ≠ ∅) as Hv.
  { apply name_too_short. simpl. lia. }
  destruct (resolver_lookup isEmail defaultValues) as (Hn & _ & Hp).
  simpl in *. rewrite Hm, Hl. simpl. unfold handleSubmit.
  rewrite decide_False by done. simpl. by rewrite Hn, Hp, Hl.
Qed.

End PageProperties.

(** ** The further properties at concrete inputs *)

Lemma pristine_submit_rejected_witness :
  log (core (page_step Sample.isEmail mount
               (Component (Submit defaultValues quiet)))) = []
  ∧ name_error (render (page_step Sample.isEmail mount
                          (Component (Submit defaultValues quiet)))) =
      Some "Name must be at least 2 characters".
Proof.
  destruct (pristine_submit_rejected Sample.isEmail mount quiet)
    as (Hlog & _ & _ & Hname & _); [reflexivity | reflexivity |].
  split; assumption.
Defined.

Lemma button_shows_waiting_request_witness :
  submit_label
    (render (page_run Sample.isEmail mount
               [Component (Submit valid_form quiet); TogglePassword])) =
    "Creating Account...".
Proof.
  destruct (button_shows_waiting_request Sample.isEmail
              [Component (Submit valid_form quiet); TogglePassword])
    as (_ & _ & _ & Hbtn).
  destruct Hbtn as (_ & Hlabel & _); [repeat constructor|].
  apply Hlabel. reflexivity.
Defined.

Lemma reveal_button_toggles_witness :
  let p := page_run Sample.isEmail mount [Component (Submit valid_form quiet)] in
  submit_disabled (render p) = true
  ∧ password_type (render p) = "password"
  ∧ password_type (render (page_step Sample.isEmail p TogglePassword)) = "text".
Proof.
  split; [reflexivity|]. split; [reflexivity|].
  destruct (reveal_button_toggles Sample.isEmail
              (page_run Sample.isEmail mount
                 [Component (Submit valid_form quiet)]) (Tick 1))
    as (_ & Htype & _); [reflexivity|].
  exact Htype.
Defined.

Lemma submit_refreshes_errors_witness :
  let p := page_run Sample.isEmail mount [Component (Submit short_name quiet)] in
  name_error (render p) = Some "Name must be at least 2 characters"
  ∧ name_error
      (render (page_step Sample.isEmail p
                 (Component (Submit valid_form quiet)))) = None.
Proof.
  split; [reflexivity|].
  destruct (submit_refreshes_errors Sample.isEmail
              (page_run Sample.isEmail mount
                 [Component (Submit short_name quiet)]) valid_form quiet)
    as (Hname & _); [reflexivity | reflexivity |].
  exact Hname.
Defined.

Lemma blank_name_posted_empty_witness :
  log (step Sample.isEmail init (Submit blank_name quiet)) =
    [Posted "/auth/signup"
       {| name := ""; email := "a@b.com"; password := "secret1" |}].
Proof.
  apply (blank_name_posted_empty Sample.isEmail init blank_name quiet);
    first [reflexivity | vm_compute; lia].
Defined.

Lemma answer_navigates_or_reports_witness :
  log (step Sample.isEmail submitted (Settle 0 Normal success_toast_throws)) =
    log submitted ++ [ToastedError "Signup failed." error_options]
  ∧ timers (step Sample.isEmail submitted
              (Settle 0 Normal success_toast_throws)) = [].
Proof.
  destruct (answer_navigates_or_reports Sample.isEmail
              [Submit valid_form quiet] 0 Normal success_toast_throws)
    as (_ & _ & Hlate); [vm_compute; lia | reflexivity |].
  apply (Hlate Nullish); reflexivity.
Defined.

Lemma requests_accounted_witness :
  let s := run Sample.isEmail init
             [Submit valid_form quiet; Settle 0 (Thrown body_error_x) quiet;
              Submit valid_form quiet] in
  count is_post (log s) = 2
  ∧ count is_post (log s) =
      count is_navigation (log s) + length (timers s)
      + count is_error (log s) + length (inflight s).
Proof.
  split; [reflexivity|].
  apply (requests_accounted Sample.isEmail
           [Submit valid_form quiet; Settle 0 (Thrown body_error_x) quiet;
            Submit valid_form quiet]).
  repeat constructor.
Defined.

Lemma resubmit_after_answer_witness :
  let s1 := step Sample.isEmail submitted (Settle 0 Normal quiet) in
  timers s1 = [(900, Navigate "/dashboard")]
  ∧ count is_post (log (step Sample.isEmail s1 (Submit valid_form quiet))) = 2.
Proof.
  split; [reflexivity|].
  destruct (resubmit_after_answer Sample.isEmail [Submit valid_form quiet] 0
              Normal quiet valid_form quiet)
    as (Hlog & _); [reflexivity | vm_compute; lia | vm_compute; reflexivity |].
  etrans; [exact (f_equal (count is_post) Hlog) | reflexivity].
Defined.
